(** * Mandelbrot_001: escape-time evaluation over a sample grid

    A shallow embedding of [Mandelbrot_001.py] and the properties of its
    functions [iterate_fc], [make_coordinates], [make_set], [save_figure]
    and [make_figure].

    Python numbers are kept abstract: the functions are written over an
    interface [Numbers] that provides the arithmetic the source uses
    ([+], [-], [*], [/], [complex], [abs(z) > 2]).  Integers that drive
    control flow ([max_iter], [x_steps], [y_steps], loop counters) are [Z].
    Exceptions are values of an error type, threaded by a small monad. *)

From Equations Require Import Equations.
From Stdlib Require Import ZArith List Bool Lia String Ascii QArith.
Import ListNotations.

Local Open Scope Z_scope.

(** ** The pieces of the Python runtime the source relies on *)

Module Py.

(** The exceptions the modelled code can raise. *)
Inductive exn : Type :=
| ZeroDivisionError
| ValueError
| TypeError.

Inductive result (A : Type) : Type :=
| Ok (a : A)
| Raise (e : exn).
Arguments Ok {A} a.
Arguments Raise {A} e.

Definition bind {A B : Type} (m : result A) (k : A -> result B) : result B :=
  match m with
  | Ok a => k a
  | Raise e => Raise e
  end.

(** [range(n)]: the integers [0, 1, ..., n-1]; empty when [n <= 0]. *)
Definition range (n : Z) : list Z :=
  map Z.of_nat (seq 0 (Z.to_nat n)).

(** [for x in l: s = body(s, x)], stopping at the first exception. *)
Fixpoint for_each {A S : Type} (l : list A) (s : S)
         (body : S -> A -> result S) : result S :=
  match l with
  | [] => Ok s
  | x :: l' => bind (body s x) (fun s' => for_each l' s' body)
  end.

End Py.

Import Py.

Declare Scope py_scope.
Delimit Scope py_scope with py.
Notation "x <- m ;; k" := (bind m (fun x => k))
  (at level 61, m at next level, right associativity) : py_scope.

(** ** Numbers

    [real] stands for the values of [x_range], [y_range] (Python [int] or
    [float]); [cplx] for the values [iterate_fc] works on. *)

Class Numbers : Type := {
  real : Type;
  cplx : Type;
  (** an [int] used where a real is expected *)
  of_int : Z -> real;
  radd : real -> real -> real;
  rsub : real -> real -> real;
  rmul : real -> real -> real;
  (** [a / b] for [b] different from zero *)
  rdiv : real -> real -> real;
  (** [complex(x, y)] *)
  complex : real -> real -> cplx;
  (** an [int] used where a complex is expected *)
  c_of_int : Z -> cplx;
  cadd : cplx -> cplx -> cplx;
  cmul : cplx -> cplx -> cplx;
  (** the test [abs(z) > 2] *)
  abs_gt_2 : cplx -> bool
}.

Section Source.

Context {N : Numbers}.

(** [a / d] with an [int] divisor: Python raises when [d] is zero. *)
Definition py_div (a : real) (d : Z) : result real :=
  if d =? 0 then Raise ZeroDivisionError else Ok (rdiv a (of_int d)).

(** *** iterate_fc *)

(** The [while iters <= max_iter] loop of [iterate_fc], from a state
    [(iters, z, fc)].  The loop counter grows towards [max_iter + 1]. *)
Equations? iterate_fc_loop (c : cplx) (max_iter iters : Z) (z : cplx)
           (fc : list cplx) : Z * list cplx
  by wf (Z.to_nat (max_iter + 1 - iters)) lt :=
  iterate_fc_loop c max_iter iters z fc with Z_le_gt_dec iters max_iter => {
    | right _ := (max_iter, fc);
    | left _ with abs_gt_2 z => {
        | true := (iters, fc);
        | false :=
            iterate_fc_loop c max_iter (iters + 1) (cadd (cmul z z) c)
                            (fc ++ [cadd (cmul z z) c]) } }.
Proof. lia. Qed.

Definition iterate_fc (c initial_z : cplx) (max_iter : Z) : Z * list cplx :=
  iterate_fc_loop c max_iter 0 initial_z [initial_z].

(** *** make_coordinates *)

(** One pass of [for step in range(steps): vs.append(v0 + step * (v1-v0) / (steps-1))]. *)
Definition spaced (v0 v1 : real) (steps : Z) : result (list real) :=
  for_each (range steps) []
    (fun vs step =>
       (q <- py_div (rmul (of_int step) (rsub v1 v0)) (steps - 1) ;;
        Ok (vs ++ [radd v0 q]))%py).

Definition make_coordinates (x_range y_range : real * real)
           (x_steps y_steps : Z) : result (list cplx) :=
  let '(x0, x1) := (fst x_range, snd x_range) in
  let '(y0, y1) := (fst y_range, snd y_range) in
  (xs <- spaced x0 x1 x_steps ;;
   ys <- spaced y0 y1 y_steps ;;
   Ok (fold_left
         (fun zs y => fold_left (fun zs x => zs ++ [complex x y]) xs zs)
         ys []))%py.

(** The value the spacing loop appends at index [step], when the
    division goes through. *)
Definition spaced_at (v0 v1 : real) (steps step : Z) : real :=
  radd v0 (rdiv (rmul (of_int step) (rsub v1 v0)) (of_int (steps - 1))).

(** *** make_set *)

Definition make_set (x_range y_range : real * real)
           (x_steps y_steps max_iter : Z) : result (list cplx * list Z) :=
  (cs <- make_coordinates x_range y_range x_steps y_steps ;;
   Ok (cs,
       fold_left
         (fun iters c =>
            let '(num_iters, _) := iterate_fc c (c_of_int 0) max_iter in
            iters ++ [num_iters])
         cs []))%py.

(** *** The evaluator as the specification words it

    A configuration [(count, z, trajectory)]; one turn of the loop either
    returns or moves to the next configuration. *)

Record config : Type := Config {
  count : Z;
  current : cplx;
  trajectory : list cplx
}.

Definition turn (c : cplx) (max_iter : Z) (s : config)
  : config + (Z * list cplx) :=
  if count s <=? max_iter then
    if abs_gt_2 (current s) then inr (count s, trajectory s)
    else
      let z' := cadd (cmul (current s) (current s)) c in
      inl (Config (count s + 1) z' (trajectory s ++ [z']))
  else inr (max_iter, trajectory s).

Fixpoint run (fuel : nat) (c : cplx) (max_iter : Z) (s : config)
  : option (Z * list cplx) :=
  match fuel with
  | O => None
  | S fuel' =>
      match turn c max_iter s with
      | inr r => Some r
      | inl s' => run fuel' c max_iter s'
      end
  end.

(** The reference loop, given [fuel] turns. *)
Definition evaluate (fuel : nat) (c initial_z : cplx) (max_iter : Z)
  : option (Z * list cplx) :=
  run fuel c max_iter (Config 0 initial_z [initial_z]).

(** *** The orbit of a point, used to state what the loop computes *)

Definition fc_step (c z : cplx) : cplx := cadd (cmul z z) c.

(** The [n] values that follow [z]: [f z, f (f z), ...]. *)
Fixpoint orbit (c z : cplx) (n : nat) : list cplx :=
  match n with
  | O => []
  | S n' => fc_step c z :: orbit c (fc_step c z) n'
  end.

(** The value after [n] applications. *)
Fixpoint orbit_at (c z : cplx) (n : nat) : cplx :=
  match n with
  | O => z
  | S n' => orbit_at c (fc_step c z) n'
  end.

(** The first index below [n] at which the orbit from [z] has magnitude
    above 2. *)
Fixpoint escape_within (c z : cplx) (n : nat) : option nat :=
  match n with
  | O => None
  | S n' =>
      if abs_gt_2 z then Some O
      else option_map S (escape_within c (fc_step c z) n')
  end.

End Source.

(** ** Rendering: the image sink, the file system and the clock *)

(** The array library and the image writer are outside the repository;
    [save_figure] only needs a reshape of the flat counts. *)
Class Imaging : Type := {
  array : Type;
  (** [np.array(iters).reshape((rows, cols))] *)
  reshape : list Z -> Z * Z -> result array
}.

Module Render.

Record timestamp : Type := Timestamp {
  year : nat; month : nat; day : nat;
  hour : nat; minute : nat; second : nat
}.

Definition digit (n : nat) : ascii :=
  ascii_of_nat (48 + Nat.modulo n 10).

Definition pad2 (n : nat) : string :=
  String (digit (Nat.div n 10)) (String (digit n) EmptyString).

Definition pad4 (n : nat) : string :=
  (pad2 (Nat.div n 100) ++ pad2 n)%string.

(** [time.strftime('Mandelbrot_001___%Y-%m-%d___%H-%M-%S.png')] *)
Definition strftime_name (t : timestamp) : string :=
  ("Mandelbrot_001___" ++ pad4 (year t) ++ "-" ++ pad2 (month t) ++ "-"
     ++ pad2 (day t) ++ "___" ++ pad2 (hour t) ++ "-" ++ pad2 (minute t)
     ++ "-" ++ pad2 (second t) ++ ".png")%string.

(** [os.path.join(a, b)] for a relative [b] *)
Definition join (a b : string) : string := (a ++ "/" ++ b)%string.

Section Sink.

Context {I : Imaging}.

(** One call of [plt.imsave]. *)
Record imsave_call : Type := Imsave {
  sink_fname : string;
  sink_arr : array;
  sink_origin : string;
  sink_kwargs : list (string * string)
}.

(** What the code observes and changes outside itself. *)
Record world : Type := World {
  cwd_entries : list string;     (* [listdir()] *)
  clock : timestamp;             (* the local time *)
  written : list imsave_call     (* images written so far, oldest first *)
}.

Definition mkdir (name : string) (w : world) : world :=
  World (cwd_entries w ++ [name]) (clock w) (written w).

Definition imsave (call : imsave_call) (w : world) : world :=
  World (cwd_entries w) (clock w) (written w ++ [call]).

Definition in_list (name : string) (l : list string) : bool :=
  existsb (String.eqb name) l.

(** [save_figure(cs, iters, x_steps, y_steps, fname, **kwargs)]; the
    result is the world afterwards and [None] or the exception. *)
Definition save_figure {cplx : Type} (cs : list cplx) (iters : list Z)
           (x_steps y_steps : Z) (fname : option string)
           (kwargs : list (string * string)) (w : world)
  : world * result unit :=
  let '(w1, fname1) :=
    match fname with
    | None =>
        let w' := if negb (in_list "images" (cwd_entries w))
                  then mkdir "images" w else w in
        (w', join "images" (strftime_name (clock w')))
    | Some f => (w, f)
    end in
  match reshape iters (y_steps, x_steps) with
  | Raise e => (w1, Raise e)
  | Ok arr =>
      (* [imsave(fname=.., arr=.., origin='lower', **kwargs)]: a keyword
         given twice is a [TypeError] *)
      if existsb (fun kv => in_list (fst kv) ["fname"; "arr"; "origin"]%string)
                 kwargs
      then (w1, Raise TypeError)
      else (imsave (Imsave fname1 arr "lower" kwargs) w1, Ok tt)
  end.

(** [make_figure(x_range, y_range, x_steps, y_steps, max_iter, fname,
    cmap, **kwargs)].  The call of [save_figure] passes the counts, the
    resolution and [cmap = cmap]; its [fname] keeps its default. *)
Definition make_figure {N : Numbers} (x_range y_range : real * real)
           (x_steps y_steps max_iter : Z) (fname : option string)
           (cmap : string) (kwargs : list (string * string)) (w : world)
  : world * result unit :=
  match make_set x_range y_range x_steps y_steps max_iter with
  | Raise e => (w, Raise e)
  | Ok (cs, iters) =>
      save_figure cs iters x_steps y_steps None [("cmap"%string, cmap)] w
  end.

End Sink.

End Render.

(** ** Instances used to run the definitions *)

(** Exact rational arithmetic, fractions kept in lowest terms; a complex
    number is its pair of coordinates. *)
#[export] Instance ExactNumbers : Numbers := {|
  real := Q;
  cplx := Q * Q;
  of_int := inject_Z;
  radd := fun a b => Qred (Qplus a b);
  rsub := fun a b => Qred (Qminus a b);
  rmul := fun a b => Qred (Qmult a b);
  rdiv := fun a b => Qred (Qdiv a b);
  complex := fun x y => (x, y);
  c_of_int := fun n => (inject_Z n, inject_Z 0);
  cadd := fun u v => (Qred (Qplus (fst u) (fst v)), Qred (Qplus (snd u) (snd v)));
  cmul := fun u v =>
    (Qred (Qminus (Qmult (fst u) (fst v)) (Qmult (snd u) (snd v))),
     Qred (Qplus (Qmult (fst u) (snd v)) (Qmult (snd u) (fst v))));
  abs_gt_2 := fun u =>
    negb (Qle_bool (Qplus (Qmult (fst u) (fst u)) (Qmult (snd u) (snd u)))
                   (inject_Z 4))
|}.

(** Rows of a fixed width cut from a flat list. *)
Fixpoint rows_of (rows : nat) (cols : nat) (l : list Z) : list (list Z) :=
  match rows with
  | O => []
  | S r => firstn cols l :: rows_of r cols (skipn cols l)
  end.

(** A two-dimensional array as a list of rows; the shape must be
    non-negative and account for every element. *)
#[export] Instance RowArrays : Imaging := {|
  array := list (list Z);
  reshape := fun l shape =>
    let '(rows, cols) := shape in
    if (0 <=? rows) && (0 <=? cols) && (rows * cols =? Z.of_nat (List.length l))
    then Ok (rows_of (Z.to_nat rows) (Z.to_nat cols) l)
    else Raise ValueError
|}.

(** * Properties *)

(** ** The evaluator loop *)

Section EvaluatorFacts.

Context {N : Numbers}.

(** The loop body, once around. *)
Lemma iterate_fc_loop_turn (c : cplx) (max_iter iters : Z) (z : cplx)
      (fc : list cplx) :
  iterate_fc_loop c max_iter iters z fc =
  if iters <=? max_iter then
    if abs_gt_2 z then (iters, fc)
    else iterate_fc_loop c max_iter (iters + 1) (fc_step c z)
                         (fc ++ [fc_step c z])
  else (max_iter, fc).
Proof.
  rewrite iterate_fc_loop_equation_1.
  destruct (Z_le_gt_dec iters max_iter) as [Hle | Hgt]; simpl.
  - assert (Ht : (iters <=? max_iter) = true) by (apply Z.leb_le; lia).
    rewrite Ht. destruct (abs_gt_2 z); reflexivity.
  - assert (Hf : (iters <=? max_iter) = false) by (apply Z.leb_gt; lia).
    rewrite Hf. reflexivity.
Qed.

(** What the loop returns, in terms of the orbit: [n] is the number of
    turns the counter still allows. *)
Lemma iterate_fc_loop_orbit (n : nat) :
  forall (c : cplx) (max_iter iters : Z) (z : cplx) (fc : list cplx),
    Z.to_nat (max_iter + 1 - iters) = n ->
    iterate_fc_loop c max_iter iters z fc =
    match escape_within c z n with
    | Some j => (iters + Z.of_nat j, fc ++ orbit c z j)
    | None => (max_iter, fc ++ orbit c z n)
    end.
Proof.
  induction n as [| n IH]; intros c max_iter iters z fc Hn;
    rewrite iterate_fc_loop_turn.
  - assert (Hf : (iters <=? max_iter) = false) by (apply Z.leb_gt; lia).
    rewrite Hf. simpl. now rewrite app_nil_r.
  - assert (Ht : (iters <=? max_iter) = true) by (apply Z.leb_le; lia).
    rewrite Ht. simpl.
    destruct (abs_gt_2 z) eqn:Hz.
    + simpl. now rewrite Z.add_0_r, app_nil_r.
    + rewrite (IH c max_iter (iters + 1)) by lia.
      destruct (escape_within c (fc_step c z) n) as [j |]; simpl.
      * rewrite <- app_assoc. simpl. f_equal. lia.
      * now rewrite <- app_assoc.
Qed.

Lemma iterate_fc_orbit (c initial_z : cplx) (max_iter : Z) :
  0 <= max_iter ->
  iterate_fc c initial_z max_iter =
  match escape_within c initial_z (Z.to_nat (max_iter + 1)) with
  | Some j => (Z.of_nat j, initial_z :: orbit c initial_z j)
  | None => (max_iter, initial_z :: orbit c initial_z (Z.to_nat (max_iter + 1)))
  end.
Proof.
  intros HM. unfold iterate_fc.
  rewrite (iterate_fc_loop_orbit (Z.to_nat (max_iter + 1))) by (f_equal; lia).
  destruct (escape_within _ _ _); reflexivity.
Qed.

(** Facts on [escape_within], [orbit] and [orbit_at]. *)

Lemma escape_within_bound (c : cplx) (n : nat) :
  forall z j, escape_within c z n = Some j -> (j < n)%nat.
Proof.
  induction n as [| n IH]; intros z j; simpl; [discriminate |].
  destruct (abs_gt_2 z).
  - intros [= <-]. lia.
  - destruct (escape_within c (fc_step c z) n) as [k |] eqn:Hk;
      simpl; [| discriminate].
    intros [= <-]. apply IH in Hk. lia.
Qed.

Lemma escape_within_some (c : cplx) (n : nat) :
  forall z j, escape_within c z n = Some j ->
    abs_gt_2 (orbit_at c z j) = true /\
    forall k, (k < j)%nat -> abs_gt_2 (orbit_at c z k) = false.
Proof.
  induction n as [| n IH]; intros z j; simpl; [discriminate |].
  destruct (abs_gt_2 z) eqn:Hz.
  - intros [= <-]. split; [exact Hz | intros k Hk; lia].
  - destruct (escape_within c (fc_step c z) n) as [i |] eqn:Hi;
      simpl; [| discriminate].
    intros [= <-]. destruct (IH _ _ Hi) as [He Hb]. split; [exact He |].
    intros [| k] Hk; simpl; [exact Hz | apply Hb; lia].
Qed.

Lemma escape_within_none (c : cplx) (n : nat) :
  forall z, escape_within c z n = None ->
    forall k, (k < n)%nat -> abs_gt_2 (orbit_at c z k) = false.
Proof.
  induction n as [| n IH]; intros z; simpl; [intros _ k Hk; lia |].
  destruct (abs_gt_2 z) eqn:Hz; [discriminate |].
  destruct (escape_within c (fc_step c z) n) eqn:Hi; simpl; [discriminate |].
  intros _ [| k] Hk; simpl; [exact Hz | apply (IH _ Hi); lia].
Qed.

Lemma orbit_length (c : cplx) (n : nat) :
  forall z, List.length (orbit c z n) = n.
Proof. induction n; intros z; simpl; [| rewrite IHn]; reflexivity. Qed.

Lemma orbit_nth (c : cplx) (n : nat) :
  forall z k, (k <= n)%nat ->
    nth_error (z :: orbit c z n) k = Some (orbit_at c z k).
Proof.
  induction n as [| n IH]; intros z [| k] Hk; simpl; try reflexivity;
    try lia.
  apply (IH (fc_step c z) k). lia.
Qed.

Lemma orbit_at_succ (c : cplx) (k : nat) :
  forall z, orbit_at c z (S k) = fc_step c (orbit_at c z k).
Proof. induction k; intros z; [reflexivity | apply (IHk (fc_step c z))]. Qed.

(** The reference loop returns what the source's loop returns. *)
Lemma run_iterate_fc_loop (n : nat) :
  forall (fuel : nat) (c : cplx) (max_iter : Z) (s : config),
    Z.to_nat (max_iter + 1 - count s) = n ->
    (n < fuel)%nat ->
    run fuel c max_iter s =
    Some (iterate_fc_loop c max_iter (count s) (current s) (trajectory s)).
Proof.
  induction n as [| n IH]; intros fuel c max_iter s Hn Hfuel;
    (destruct fuel as [| fuel]; [lia |]);
    rewrite iterate_fc_loop_turn; simpl; unfold turn.
  - assert (Hf : (count s <=? max_iter) = false) by (apply Z.leb_gt; lia).
    now rewrite Hf.
  - assert (Ht : (count s <=? max_iter) = true) by (apply Z.leb_le; lia).
    rewrite Ht. destruct (abs_gt_2 (current s)); [reflexivity |].
    rewrite IH; [reflexivity | simpl; lia | lia].
Qed.

End EvaluatorFacts.

Section EscapeFacts.

Context {N : Numbers}.

Lemma escape_within_first (c : cplx) (n : nat) :
  forall z k, (k < n)%nat ->
    abs_gt_2 (orbit_at c z k) = true ->
    (forall i, (i < k)%nat -> abs_gt_2 (orbit_at c z i) = false) ->
    escape_within c z n = Some k.
Proof.
  induction n as [| n IH]; intros z k Hk He Hb; [lia |]. simpl.
  destruct k as [| k].
  - simpl in He. now rewrite He.
  - assert (Hz : abs_gt_2 z = false) by (apply (Hb O); lia).
    rewrite Hz.
    rewrite (IH (fc_step c z) k); [reflexivity | lia | exact He |].
    intros i Hi. apply (Hb (S i)). lia.
Qed.

Lemma escape_within_never (c : cplx) (n : nat) :
  forall z, (forall k, (k < n)%nat -> abs_gt_2 (orbit_at c z k) = false) ->
    escape_within c z n = None.
Proof.
  induction n as [| n IH]; intros z Hb; [reflexivity |]. simpl.
  assert (Hz : abs_gt_2 z = false) by (apply (Hb O); lia).
  rewrite Hz, IH; [reflexivity |].
  intros k Hk. apply (Hb (S k)). lia.
Qed.

(** Consecutive entries of a trajectory obey the recurrence. *)
Lemma orbit_consecutive (c : cplx) (n : nat) :
  forall z k a b,
    nth_error (z :: orbit c z n) k = Some a ->
    nth_error (z :: orbit c z n) (S k) = Some b ->
    b = cadd (cmul a a) c.
Proof.
  intros z k a b Ha Hb.
  assert (Hk : (S k <= n)%nat).
  { assert (H : (S k < List.length (z :: orbit c z n))%nat)
      by (apply nth_error_Some; congruence).
    simpl in H. rewrite orbit_length in H. lia. }
  rewrite orbit_nth in Ha by lia. rewrite orbit_nth in Hb by lia.
  injection Ha as <-. injection Hb as <-. apply orbit_at_succ.
Qed.

(** A fixed point of the recurrence that does not escape. *)
Lemma orbit_fixed (c z : cplx) (n : nat) :
  fc_step c z = z -> orbit c z n = repeat z n.
Proof.
  intros Hfix. induction n as [| n IH]; simpl; [reflexivity |].
  now rewrite Hfix, IH.
Qed.

Lemma orbit_at_fixed (c z : cplx) (n : nat) :
  fc_step c z = z -> orbit_at c z n = z.
Proof.
  intros Hfix. induction n as [| n IH]; simpl; [reflexivity |].
  now rewrite Hfix.
Qed.

Lemma iterate_fc_range (c initial_z : cplx) (max_iter : Z) :
  0 <= max_iter -> 0 <= fst (iterate_fc c initial_z max_iter) <= max_iter.
Proof.
  intros HM. rewrite iterate_fc_orbit by exact HM.
  destruct (escape_within c initial_z (Z.to_nat (max_iter + 1))) as [j |] eqn:Hj;
    simpl; [| lia].
  apply escape_within_bound in Hj. lia.
Qed.

End EscapeFacts.

(** ** The sample grid *)

Section GridFacts.

Context {N : Numbers}.

Lemma range_length (n : Z) : List.length (range n) = Z.to_nat n.
Proof. unfold range. now rewrite length_map, length_seq. Qed.

Lemma range_nth (n j : Z) :
  0 <= j < n -> nth_error (range n) (Z.to_nat j) = Some j.
Proof.
  intros Hj. unfold range.
  rewrite nth_error_map, nth_error_seq.
  destruct (Nat.ltb_spec (Z.to_nat j) (Z.to_nat n)) as [_ | Hge]; [| lia].
  simpl. f_equal. lia.
Qed.

Lemma spaced_loop (v0 v1 : real) (steps : Z) (l : list Z) :
  steps <> 1 ->
  forall vs,
    for_each l vs
      (fun vs step =>
         (q <- py_div (rmul (of_int step) (rsub v1 v0)) (steps - 1) ;;
          Ok (vs ++ [radd v0 q]))%py)
    = Ok (vs ++ map (spaced_at v0 v1 steps) l).
Proof.
  intros Hsteps. induction l as [| step l IH]; intros vs; simpl.
  - now rewrite app_nil_r.
  - unfold py_div at 1.
    assert (Hd : (steps - 1 =? 0) = false) by (apply Z.eqb_neq; lia).
    rewrite Hd. simpl. rewrite IH, <- app_assoc. reflexivity.
Qed.

Lemma spaced_ok (v0 v1 : real) (steps : Z) :
  steps <> 1 ->
  spaced v0 v1 steps = Ok (map (spaced_at v0 v1 steps) (range steps)).
Proof. intros Hsteps. unfold spaced. now rewrite spaced_loop. Qed.

Lemma spaced_one (v0 v1 : real) :
  spaced v0 v1 1 = Raise ZeroDivisionError.
Proof. reflexivity. Qed.

(** The two nested [for] loops build the rows one after the other. *)
Lemma inner_loop (y : real) (xs : list real) :
  forall zs,
    fold_left (fun zs x => zs ++ [complex x y]) xs zs =
    zs ++ map (fun x => complex x y) xs.
Proof.
  induction xs as [| x xs IH]; intros zs; simpl.
  - now rewrite app_nil_r.
  - rewrite IH, <- app_assoc. reflexivity.
Qed.

Lemma outer_loop (xs ys : list real) :
  forall zs,
    fold_left
      (fun zs y => fold_left (fun zs x => zs ++ [complex x y]) xs zs) ys zs =
    zs ++ flat_map (fun y => map (fun x => complex x y) xs) ys.
Proof.
  induction ys as [| y ys IH]; intros zs; simpl.
  - now rewrite app_nil_r.
  - rewrite IH, inner_loop, <- app_assoc. reflexivity.
Qed.

Lemma flat_map_rows_length {A B : Type} (f : A -> list B) (n : nat)
      (l : list A) :
  (forall a, List.length (f a) = n) ->
  List.length (flat_map f l) = (List.length l * n)%nat.
Proof.
  intros Hrow. induction l as [| a l IH]; simpl; [reflexivity |].
  now rewrite length_app, Hrow, IH.
Qed.

Lemma flat_map_rows_nth {A B : Type} (f : A -> list B) (n : nat) :
  (forall a, List.length (f a) = n) ->
  forall (l : list A) (i j : nat) (a : A),
    nth_error l i = Some a -> (j < n)%nat ->
    nth_error (flat_map f l) (i * n + j) = nth_error (f a) j.
Proof.
  intros Hrow. induction l as [| b l IH]; intros i j a Hi Hj.
  - destruct i; discriminate.
  - destruct i as [| i]; simpl in *.
    + injection Hi as ->. apply nth_error_app1. now rewrite Hrow.
    + rewrite nth_error_app2 by (rewrite Hrow; lia).
      rewrite Hrow.
      replace (n + i * n + j - n)%nat with (i * n + j)%nat by lia.
      now apply IH.
Qed.

(** What [make_coordinates] returns when neither resolution is 1. *)
Lemma make_coordinates_ok (x_range y_range : real * real)
      (x_steps y_steps : Z) :
  x_steps <> 1 -> y_steps <> 1 ->
  make_coordinates x_range y_range x_steps y_steps =
  Ok (flat_map
        (fun y =>
           map (fun x => complex x y)
               (map (spaced_at (fst x_range) (snd x_range) x_steps)
                    (range x_steps)))
        (map (spaced_at (fst y_range) (snd y_range) y_steps)
             (range y_steps))).
Proof.
  intros Hx Hy. unfold make_coordinates.
  rewrite (spaced_ok _ _ _ Hx), (spaced_ok _ _ _ Hy). simpl.
  now rewrite outer_loop.
Qed.

(** The counts of [make_set] are the evaluator mapped over the points. *)
Lemma make_set_loop (max_iter : Z) (cs : list cplx) :
  forall iters,
    fold_left
      (fun iters c =>
         let '(num_iters, _) := iterate_fc c (c_of_int 0) max_iter in
         iters ++ [num_iters])
      cs iters =
    iters ++ map (fun c => fst (iterate_fc c (c_of_int 0) max_iter)) cs.
Proof.
  induction cs as [| c cs IH]; intros iters; simpl.
  - now rewrite app_nil_r.
  - rewrite IH. destruct (iterate_fc c (c_of_int 0) max_iter) as [k traj].
    simpl. now rewrite <- app_assoc.
Qed.

Lemma make_set_ok (x_range y_range : real * real)
      (x_steps y_steps max_iter : Z) (cs : list cplx) (iters : list Z) :
  make_set x_range y_range x_steps y_steps max_iter = Ok (cs, iters) ->
  make_coordinates x_range y_range x_steps y_steps = Ok cs /\
  iters = map (fun c => fst (iterate_fc c (c_of_int 0) max_iter)) cs.
Proof.
  unfold make_set.
  destruct (make_coordinates x_range y_range x_steps y_steps) as [zs | e];
    simpl; [| discriminate].
  rewrite make_set_loop. simpl. intros [= <- <-]. split; reflexivity.
Qed.

End GridFacts.

(** ** The statements of the specification *)

(** C1: for [max_iter >= 0], [iterate_fc] returns what the reference
    check-before-step loop returns (the loop of the specification, run
    with enough turns: it checks [|z| > 2] first and returns
    [(count, trajectory)] on escape, otherwise applies [z := z*z + c],
    appends and increments; when the counter passes [max_iter] it returns
    [(max_iter, trajectory)]).  The returned count is the number of
    applications completed from non-escaping values before the escape is
    detected: if the first value of magnitude above 2 is reached after
    [k <= max_iter] applications the result is [k] with the [k] values
    applied so far, and if there is none the result is [max_iter]. *)
Theorem iterate_fc_is_reference_loop {N : Numbers}
        (c initial_z : cplx) (max_iter : Z) :
  0 <= max_iter ->
  (forall fuel : nat,
     (Z.to_nat (max_iter + 1) < fuel)%nat ->
     evaluate fuel c initial_z max_iter =
     Some (iterate_fc c initial_z max_iter)) /\
  (forall k : nat,
     Z.of_nat k <= max_iter ->
     abs_gt_2 (orbit_at c initial_z k) = true ->
     (forall i, (i < k)%nat -> abs_gt_2 (orbit_at c initial_z i) = false) ->
     iterate_fc c initial_z max_iter =
     (Z.of_nat k, initial_z :: orbit c initial_z k)) /\
  ((forall k : nat,
      Z.of_nat k <= max_iter -> abs_gt_2 (orbit_at c initial_z k) = false) ->
   iterate_fc c initial_z max_iter =
   (max_iter, initial_z :: orbit c initial_z (Z.to_nat (max_iter + 1)))).
Proof.
  intros HM. repeat split.
  - intros fuel Hfuel. unfold evaluate, iterate_fc.
    apply (run_iterate_fc_loop (Z.to_nat (max_iter + 1))); simpl;
      [f_equal; lia | exact Hfuel].
  - intros k Hk He Hb. rewrite iterate_fc_orbit by exact HM.
    rewrite (escape_within_first c _ initial_z k); [reflexivity | lia | | ];
      assumption.
  - intros Hb. rewrite iterate_fc_orbit by exact HM.
    rewrite escape_within_never; [reflexivity |].
    intros k Hk. apply Hb. lia.
Qed.

Lemma iterate_fc_is_reference_loop_witness :
  0 <= 1 /\
  evaluate (N := ExactNumbers) 3 (inject_Z 10, inject_Z 0)
           (inject_Z 0, inject_Z 0) 1 =
  Some (iterate_fc (N := ExactNumbers) (inject_Z 10, inject_Z 0)
                   (inject_Z 0, inject_Z 0) 1).
Proof.
  split; [lia |].
  apply (proj1 (iterate_fc_is_reference_loop (N := ExactNumbers)
                  (inject_Z 10, inject_Z 0) (inject_Z 0, inject_Z 0) 1
                  ltac:(lia))).
  simpl. lia.
Defined.

(** C3 (as amended): when [initial_z] does not escape and
    [initial_z*initial_z + c] does, [iterate_fc] returns the count 1 for
    every [max_iter >= 1] and the count 0 for [max_iter = 0]; the
    trajectory is [initial_z] followed by the escaping value. *)
Theorem iterate_fc_immediate_escape {N : Numbers}
        (c initial_z : cplx) (max_iter : Z) :
  abs_gt_2 initial_z = false ->
  abs_gt_2 (cadd (cmul initial_z initial_z) c) = true ->
  0 <= max_iter ->
  iterate_fc c initial_z max_iter =
  (Z.min 1 max_iter, [initial_z; cadd (cmul initial_z initial_z) c]).
Proof.
  intros Hz He HM.
  destruct (Z.eq_dec max_iter 0) as [-> | Hpos].
  - rewrite iterate_fc_orbit by lia. simpl. rewrite Hz. reflexivity.
  - rewrite iterate_fc_orbit by lia.
    rewrite (escape_within_first c _ initial_z 1%nat).
    + simpl. f_equal. lia.
    + lia.
    + exact He.
    + intros i Hi. assert (i = O) by lia. subst i. exact Hz.
Qed.

Lemma iterate_fc_immediate_escape_witness :
  iterate_fc (N := ExactNumbers) (inject_Z 10, inject_Z 0)
             (inject_Z 0, inject_Z 0) 5 =
  (1, [(inject_Z 0, inject_Z 0); (inject_Z 10, inject_Z 0)]).
Proof.
  apply (iterate_fc_immediate_escape (N := ExactNumbers)
           (inject_Z 10, inject_Z 0) (inject_Z 0, inject_Z 0) 5);
    [reflexivity | reflexivity | lia].
Defined.

(** C3 as stated fails: with [c = 10], [initial_z = 0] and [max_iter = 1]
    the start does not escape, the first application does, and the
    returned count is 1. *)
Lemma iterate_fc_immediate_escape_not_zero :
  abs_gt_2 (c_of_int (Numbers := ExactNumbers) 0) = false /\
  abs_gt_2 (cadd (cmul (c_of_int 0) (c_of_int 0))
                 (complex (Numbers := ExactNumbers) (of_int 10) (of_int 0)))
  = true /\
  0 <= 1 /\
  fst (iterate_fc (N := ExactNumbers) (complex (of_int 10) (of_int 0))
                  (c_of_int 0) 1) <> 0.
Proof. repeat split; vm_compute; congruence. Qed.

(** C4 (as amended): with [c = 0] and [initial_z = 0] (zero is a fixed
    point of the recurrence and does not escape), [iterate_fc] returns the
    count [M] and a trajectory of exactly [M + 2] zeros. *)
Theorem iterate_fc_zero_orbit {N : Numbers} (M : Z) :
  cadd (cmul (c_of_int 0) (c_of_int 0)) (c_of_int 0) = c_of_int 0 ->
  abs_gt_2 (c_of_int 0) = false ->
  0 <= M ->
  iterate_fc (c_of_int 0) (c_of_int 0) M =
  (M, repeat (c_of_int 0) (Z.to_nat (M + 2))).
Proof.
  intros Hfix Hz HM. rewrite iterate_fc_orbit by exact HM.
  rewrite escape_within_never.
  - rewrite orbit_fixed by exact Hfix.
    replace (Z.to_nat (M + 2)) with (S (Z.to_nat (M + 1))) by lia.
    reflexivity.
  - intros k _. rewrite orbit_at_fixed by exact Hfix. exact Hz.
Qed.

Lemma iterate_fc_zero_orbit_witness :
  iterate_fc (N := ExactNumbers) (c_of_int 0) (c_of_int 0) 3 =
  (3, repeat (c_of_int 0) (Z.to_nat (3 + 2))).
Proof.
  apply (iterate_fc_zero_orbit (N := ExactNumbers) 3);
    [reflexivity | reflexivity | lia].
Defined.

(** C4 as stated fails: for [M = 0] the trajectory holds two zeros, not
    [M + 1 = 1]. *)
Lemma iterate_fc_zero_orbit_not_M_plus_1 :
  iterate_fc (N := ExactNumbers) (c_of_int 0) (c_of_int 0) 0 =
  (0, [c_of_int 0; c_of_int 0]) /\
  snd (iterate_fc (N := ExactNumbers) (c_of_int 0) (c_of_int 0) 0) <>
  repeat (c_of_int 0) (Z.to_nat (0 + 1)).
Proof. split; vm_compute; congruence. Qed.

(** C9: for [max_iter < 0] the loop body never runs: [iterate_fc] returns
    [(max_iter, [initial_z])], so the returned count is negative. *)
Theorem iterate_fc_negative_max_iter {N : Numbers}
        (c initial_z : cplx) (max_iter : Z) :
  max_iter < 0 ->
  iterate_fc c initial_z max_iter = (max_iter, [initial_z]) /\
  fst (iterate_fc c initial_z max_iter) < 0.
Proof.
  intros HM.
  assert (H : iterate_fc c initial_z max_iter = (max_iter, [initial_z])).
  { unfold iterate_fc. rewrite iterate_fc_loop_turn.
    assert (Hf : (0 <=? max_iter) = false) by (apply Z.leb_gt; lia).
    now rewrite Hf. }
  rewrite H. split; [reflexivity | exact HM].
Qed.

Lemma iterate_fc_negative_max_iter_witness :
  iterate_fc (N := ExactNumbers) (inject_Z 10, inject_Z 0)
             (inject_Z 0, inject_Z 0) (-3) =
  (-3, [(inject_Z 0, inject_Z 0)]) /\
  fst (iterate_fc (N := ExactNumbers) (inject_Z 10, inject_Z 0)
                  (inject_Z 0, inject_Z 0) (-3)) < 0.
Proof.
  apply (iterate_fc_negative_max_iter (N := ExactNumbers)
           (inject_Z 10, inject_Z 0) (inject_Z 0, inject_Z 0) (-3)).
  lia.
Defined.

(** C10: for [max_iter >= 0] the trajectory starts with [initial_z], each
    entry is the recurrence applied to the one before, and its length is
    the returned count plus one when an escape is detected (some value
    reached within [max_iter] applications has magnitude above 2) and
    [max_iter + 2] when none is. *)
Theorem iterate_fc_trajectory {N : Numbers}
        (c initial_z : cplx) (max_iter : Z) :
  0 <= max_iter ->
  let r := iterate_fc c initial_z max_iter in
  nth_error (snd r) 0 = Some initial_z /\
  (forall (n : nat) (a b : cplx),
     nth_error (snd r) n = Some a ->
     nth_error (snd r) (S n) = Some b ->
     b = cadd (cmul a a) c) /\
  ((exists k : nat,
      Z.of_nat k <= max_iter /\ abs_gt_2 (orbit_at c initial_z k) = true) ->
   Z.of_nat (List.length (snd r)) = fst r + 1) /\
  ((forall k : nat,
      Z.of_nat k <= max_iter -> abs_gt_2 (orbit_at c initial_z k) = false) ->
   Z.of_nat (List.length (snd r)) = max_iter + 2).
Proof.
  intros HM r. subst r. rewrite iterate_fc_orbit by exact HM.
  destruct (escape_within c initial_z (Z.to_nat (max_iter + 1)))
    as [j |] eqn:Hj; simpl.
  - repeat split.
    + intros n a b. apply orbit_consecutive.
    + intros _. rewrite orbit_length. lia.
    + intros Hnone. pose proof (escape_within_bound _ _ _ _ Hj) as Hlt.
      destruct (escape_within_some _ _ _ _ Hj) as [He _].
      rewrite Hnone in He by lia. discriminate.
  - repeat split.
    + intros n a b. apply orbit_consecutive.
    + intros [k [Hk He]].
      rewrite (escape_within_none _ _ _ Hj k) in He by lia. discriminate.
    + intros _. rewrite orbit_length. lia.
Qed.

Lemma iterate_fc_trajectory_witness :
  let r := iterate_fc (N := ExactNumbers) (inject_Z 10, inject_Z 0)
                      (inject_Z 0, inject_Z 0) 4 in
  nth_error (snd r) 0 = Some (inject_Z 0, inject_Z 0) /\
  Z.of_nat (List.length (snd r)) = fst r + 1.
Proof.
  pose proof (iterate_fc_trajectory (N := ExactNumbers)
                (inject_Z 10, inject_Z 0) (inject_Z 0, inject_Z 0) 4
                ltac:(lia)) as [H0 [_ [Hesc _]]].
  split; [exact H0 |].
  apply Hesc. exists 1%nat. split; [lia | reflexivity].
Defined.

Section GridLength.

Context {N : Numbers}.

Lemma make_coordinates_length (x_range y_range : real * real)
      (x_steps y_steps : Z) (zs : list cplx) :
  x_steps <> 1 -> y_steps <> 1 ->
  make_coordinates x_range y_range x_steps y_steps = Ok zs ->
  List.length zs = (Z.to_nat y_steps * Z.to_nat x_steps)%nat.
Proof.
  intros Hx Hy. rewrite make_coordinates_ok by assumption.
  intros [= <-].
  rewrite (flat_map_rows_length _ (Z.to_nat x_steps)).
  - now rewrite length_map, range_length.
  - intros y. now rewrite !length_map, range_length.
Qed.

Lemma make_coordinates_nth (x_range y_range : real * real)
      (x_steps y_steps i j : Z) (zs : list cplx) :
  x_steps <> 1 -> y_steps <> 1 ->
  make_coordinates x_range y_range x_steps y_steps = Ok zs ->
  0 <= i < y_steps -> 0 <= j < x_steps ->
  nth_error zs (Z.to_nat (i * x_steps + j)) =
  Some (complex (spaced_at (fst x_range) (snd x_range) x_steps j)
                (spaced_at (fst y_range) (snd y_range) y_steps i)).
Proof.
  intros Hx Hy. rewrite make_coordinates_ok by assumption.
  intros [= <-] Hi Hj.
  replace (Z.to_nat (i * x_steps + j))
    with (Z.to_nat i * Z.to_nat x_steps + Z.to_nat j)%nat by nia.
  rewrite (flat_map_rows_nth _ (Z.to_nat x_steps)) with
    (a := spaced_at (fst y_range) (snd y_range) y_steps i).
  - rewrite !nth_error_map, (range_nth x_steps j Hj). reflexivity.
  - intros y. now rewrite !length_map, range_length.
  - rewrite nth_error_map, (range_nth y_steps i Hi). reflexivity.
  - lia.
Qed.

End GridLength.

(** C5: for [x_steps >= 2] and [y_steps >= 2], [make_coordinates] returns
    [x_steps * y_steps] points in row-major order, y outer and x inner:
    the element at index [i*x_steps + j] is
    [complex(x0 + j*(x1-x0)/(x_steps-1), y0 + i*(y1-y0)/(y_steps-1))];
    the 3x3 grid over (-1,1)x(-1,1) is
    (-1,-1),(0,-1),(1,-1),(-1,0),(0,0),(1,0),(-1,1),(0,1),(1,1). *)
Theorem make_coordinates_row_major :
  (forall (N : Numbers) (x0 x1 y0 y1 : real) (x_steps y_steps : Z),
     2 <= x_steps -> 2 <= y_steps ->
     exists zs : list cplx,
       make_coordinates (x0, x1) (y0, y1) x_steps y_steps = Ok zs /\
       Z.of_nat (List.length zs) = x_steps * y_steps /\
       forall i j : Z,
         0 <= i < y_steps -> 0 <= j < x_steps ->
         nth_error zs (Z.to_nat (i * x_steps + j)) =
         Some (complex
                 (radd x0 (rdiv (rmul (of_int j) (rsub x1 x0))
                                (of_int (x_steps - 1))))
                 (radd y0 (rdiv (rmul (of_int i) (rsub y1 y0))
                                (of_int (y_steps - 1)))))) /\
  make_coordinates (N := ExactNumbers)
                   (inject_Z (-1), inject_Z 1) (inject_Z (-1), inject_Z 1) 3 3 =
  Ok [ (inject_Z (-1), inject_Z (-1)); (inject_Z 0, inject_Z (-1));
       (inject_Z 1, inject_Z (-1));
       (inject_Z (-1), inject_Z 0); (inject_Z 0, inject_Z 0);
       (inject_Z 1, inject_Z 0);
       (inject_Z (-1), inject_Z 1); (inject_Z 0, inject_Z 1);
       (inject_Z 1, inject_Z 1) ].
Proof.
  split; [| reflexivity].
  intros N x0 x1 y0 y1 x_steps y_steps Hx Hy.
  assert (Hx1 : x_steps <> 1) by lia. assert (Hy1 : y_steps <> 1) by lia.
  eexists. split; [apply (make_coordinates_ok _ _ _ _ Hx1 Hy1) |].
  pose proof (make_coordinates_ok (x0, x1) (y0, y1) _ _ Hx1 Hy1) as Hok.
  split.
  - rewrite (make_coordinates_length _ _ _ _ _ Hx1 Hy1 Hok). nia.
  - intros i j Hi Hj.
    apply (make_coordinates_nth _ _ _ _ _ _ _ Hx1 Hy1 Hok Hi Hj).
Qed.

Lemma make_coordinates_row_major_witness :
  exists zs : list (Q * Q),
    make_coordinates (N := ExactNumbers)
                     (inject_Z 0, inject_Z 1) (inject_Z 0, inject_Z 3) 2 4 =
    Ok zs /\
    Z.of_nat (List.length zs) = 2 * 4.
Proof.
  destruct (proj1 make_coordinates_row_major ExactNumbers
              (inject_Z 0) (inject_Z 1) (inject_Z 0) (inject_Z 3) 2 4
              ltac:(lia) ltac:(lia)) as [zs [Hok [Hlen _]]].
  exists zs. split; [exact Hok | exact Hlen].
Defined.

(** C6: for [x_steps >= 2], [y_steps >= 2] and [max_iter >= 0], [make_set]
    returns two sequences of length [x_steps * y_steps]; the coordinates
    are those of [make_coordinates] on the same arguments, and the count
    at each index is the count [iterate_fc] returns for the coordinate at
    that index, with [initial_z = 0] and the given [max_iter]. *)
Theorem make_set_index_aligned {N : Numbers}
        (x_range y_range : real * real) (x_steps y_steps max_iter : Z) :
  2 <= x_steps -> 2 <= y_steps -> 0 <= max_iter ->
  exists (cs : list cplx) (iters : list Z),
    make_set x_range y_range x_steps y_steps max_iter = Ok (cs, iters) /\
    make_coordinates x_range y_range x_steps y_steps = Ok cs /\
    Z.of_nat (List.length cs) = x_steps * y_steps /\
    Z.of_nat (List.length iters) = x_steps * y_steps /\
    forall (i : nat) (c : cplx),
      nth_error cs i = Some c ->
      nth_error iters i = Some (fst (iterate_fc c (c_of_int 0) max_iter)).
Proof.
  intros Hx Hy HM.
  assert (Hx1 : x_steps <> 1) by lia. assert (Hy1 : y_steps <> 1) by lia.
  pose proof (make_coordinates_ok x_range y_range _ _ Hx1 Hy1) as Hok.
  pose proof (make_coordinates_length _ _ _ _ _ Hx1 Hy1 Hok) as Hlen.
  eexists. eexists. split.
  { unfold make_set. rewrite Hok. simpl. rewrite make_set_loop. reflexivity. }
  split; [exact Hok |]. split; [rewrite Hlen; nia |].
  split; [simpl; rewrite length_map, Hlen; nia |].
  intros i c Hi. simpl. rewrite nth_error_map, Hi. reflexivity.
Qed.

Lemma make_set_index_aligned_witness :
  exists (cs : list (Q * Q)) (iters : list Z),
    make_set (N := ExactNumbers)
             (inject_Z (-1), inject_Z 1) (inject_Z (-1), inject_Z 1) 3 3 4 =
    Ok (cs, iters) /\
    Z.of_nat (List.length iters) = 3 * 3.
Proof.
  destruct (make_set_index_aligned (N := ExactNumbers)
              (inject_Z (-1), inject_Z 1) (inject_Z (-1), inject_Z 1) 3 3 4
              ltac:(lia) ltac:(lia) ltac:(lia))
    as [cs [iters [Hset [_ [_ [Hlen _]]]]]].
  exists cs, iters. split; [exact Hset | exact Hlen].
Defined.

(** C7: for [max_iter >= 0] the count returned by [iterate_fc] lies in
    [[0, max_iter]]; hence every count in the sequence [make_set] returns
    is a non-negative integer bounded by [max_iter]. *)
Theorem iteration_count_bounds {N : Numbers} (max_iter : Z) :
  0 <= max_iter ->
  (forall c initial_z : cplx,
     0 <= fst (iterate_fc c initial_z max_iter) <= max_iter) /\
  (forall (x_range y_range : real * real) (x_steps y_steps : Z)
          (cs : list cplx) (iters : list Z),
     make_set x_range y_range x_steps y_steps max_iter = Ok (cs, iters) ->
     Forall (fun n => 0 <= n <= max_iter) iters).
Proof.
  intros HM. split.
  - intros c initial_z. now apply iterate_fc_range.
  - intros x_range y_range x_steps y_steps cs iters Hset.
    apply make_set_ok in Hset as [_ ->].
    apply Forall_map, Forall_forall. intros c _. now apply iterate_fc_range.
Qed.

Lemma iteration_count_bounds_witness :
  0 <= fst (iterate_fc (N := ExactNumbers) (inject_Z (-1), inject_Z 0)
                       (inject_Z 0, inject_Z 0) 7) <= 7.
Proof.
  apply (proj1 (iteration_count_bounds (N := ExactNumbers) 7 ltac:(lia))).
Defined.

(** C8: with [x_steps >= 2] and [y_steps >= 2] every division of
    [make_coordinates] has a divisor different from zero and the function
    returns without raising; with [x_steps = 1] or [y_steps = 1] the
    spacing formula divides by zero and [ZeroDivisionError] is raised. *)
Theorem make_coordinates_division {N : Numbers}
        (x_range y_range : real * real) (x_steps y_steps : Z) :
  (2 <= x_steps -> 2 <= y_steps ->
   (forall a : real, py_div a (x_steps - 1) = Ok (rdiv a (of_int (x_steps - 1)))) /\
   (forall a : real, py_div a (y_steps - 1) = Ok (rdiv a (of_int (y_steps - 1)))) /\
   exists zs : list cplx,
     make_coordinates x_range y_range x_steps y_steps = Ok zs) /\
  (x_steps = 1 \/ y_steps = 1 ->
   make_coordinates x_range y_range x_steps y_steps = Raise ZeroDivisionError).
Proof.
  split.
  - intros Hx Hy. repeat split.
    + intros a. unfold py_div.
      assert (Hd : (x_steps - 1 =? 0) = false) by (apply Z.eqb_neq; lia).
      now rewrite Hd.
    + intros a. unfold py_div.
      assert (Hd : (y_steps - 1 =? 0) = false) by (apply Z.eqb_neq; lia).
      now rewrite Hd.
    + eexists. apply make_coordinates_ok; lia.
  - intros Hone. unfold make_coordinates.
    destruct (Z.eq_dec x_steps 1) as [-> | Hx1].
    + rewrite spaced_one. reflexivity.
    + destruct Hone as [Hx | ->]; [contradiction |].
      rewrite (spaced_ok _ _ _ Hx1), spaced_one. reflexivity.
Qed.

Lemma make_coordinates_division_witness :
  (exists zs : list (Q * Q),
     make_coordinates (N := ExactNumbers)
                      (inject_Z (-1), inject_Z 1) (inject_Z (-1), inject_Z 1)
                      2 2 = Ok zs) /\
  make_coordinates (N := ExactNumbers)
                   (inject_Z (-1), inject_Z 1) (inject_Z (-1), inject_Z 1) 5 1 =
  Raise ZeroDivisionError.
Proof.
  split.
  - apply (proj1 (make_coordinates_division (N := ExactNumbers)
                    (inject_Z (-1), inject_Z 1) (inject_Z (-1), inject_Z 1)
                    2 2)); lia.
  - apply (proj2 (make_coordinates_division (N := ExactNumbers)
                    (inject_Z (-1), inject_Z 1) (inject_Z (-1), inject_Z 1)
                    5 1)).
    right. reflexivity.
Defined.

(** [save_figure] itself writes to the path it is given. *)
Lemma save_figure_uses_fname {I : Imaging} {cplx : Type} (cs : list cplx)
      (iters : list Z) (x_steps y_steps : Z) (f : string)
      (kwargs : list (string * string)) (w w' : Render.world) :
  Render.save_figure cs iters x_steps y_steps (Some f) kwargs w = (w', Ok tt) ->
  map Render.sink_fname (Render.written w') =
  map Render.sink_fname (Render.written w) ++ [f].
Proof.
  unfold Render.save_figure.
  destruct (reshape iters (y_steps, x_steps)) as [arr | e]; [| discriminate].
  destruct (existsb _ kwargs); [discriminate |].
  intros [= <-]. simpl. now rewrite map_app.
Qed.

(** C2: the destination [make_figure] hands to the image sink.  The call
    of [save_figure] inside [make_figure] does not pass [fname] on, so the
    result does not depend on it: with [fname = "out.png"] the one image
    written goes to the timestamp-derived path under [images]. *)
Theorem make_figure_destination :
  (forall (N : Numbers) (I : Imaging) (x_range y_range : real * real)
          (x_steps y_steps max_iter : Z) (fname : option string)
          (cmap : string) (kwargs : list (string * string))
          (w : Render.world),
     Render.make_figure x_range y_range x_steps y_steps max_iter fname
                        cmap kwargs w =
     Render.make_figure x_range y_range x_steps y_steps max_iter None
                        cmap kwargs w) /\
  (let w := Render.World [] (Render.Timestamp 2024 1 2 3 4 5) [] in
   let out :=
     Render.make_figure (N := ExactNumbers) (I := RowArrays)
       (inject_Z (-1), inject_Z 1) (inject_Z (-1), inject_Z 1) 2 2 1
       (Some "out.png"%string) "hot"%string [] w in
   snd out = Ok tt /\
   map Render.sink_fname (Render.written (fst out)) =
   ["images/Mandelbrot_001___2024-01-02___03-04-05.png"%string]).
Proof.
  split; [reflexivity |]. split; reflexivity.
Qed.

(** * Further properties of the code *)

(** ** The evaluator *)

Section EvaluatorMore.

Context {N : Numbers}.

Lemma escape_within_mono (c z : cplx) (n n' j : nat) :
  escape_within c z n = Some j -> (n <= n')%nat ->
  escape_within c z n' = Some j.
Proof.
  intros Hj Hle. pose proof (escape_within_bound _ _ _ _ Hj) as Hlt.
  destruct (escape_within_some _ _ _ _ Hj) as [He Hb].
  apply escape_within_first; [lia | exact He | exact Hb].
Qed.

Lemma escape_within_late (c z : cplx) (n n' j : nat) :
  escape_within c z n = None -> escape_within c z n' = Some j ->
  (n <= j)%nat.
Proof.
  intros Hnone Hj. destruct (Nat.le_gt_cases n j) as [Hle | Hgt]; [exact Hle |].
  destruct (escape_within_some _ _ _ _ Hj) as [He _].
  rewrite (escape_within_none _ _ _ Hnone j Hgt) in He. discriminate.
Qed.

Lemma orbit_prefix (c : cplx) (n : nat) :
  forall (z : cplx) (m : nat), (n <= m)%nat ->
    exists rest, orbit c z m = orbit c z n ++ rest.
Proof.
  induction n as [| n IH]; intros z m Hle; simpl.
  - exists (orbit c z m). reflexivity.
  - destruct m as [| m]; [lia |]. simpl.
    destruct (IH (fc_step c z) m ltac:(lia)) as [rest Hrest].
    exists rest. now rewrite Hrest.
Qed.

Lemma orbit_at_invariant (P : cplx -> Prop) (c : cplx) :
  (forall z, P z -> P (fc_step c z)) ->
  forall (k : nat) (z : cplx), P z -> P (orbit_at c z k).
Proof.
  intros Hstep. induction k as [| k IH]; intros z Hz; simpl; [exact Hz |].
  apply IH, Hstep, Hz.
Qed.

Lemma orbit_invariant (P : cplx -> Prop) (c : cplx) :
  (forall z, P z -> P (fc_step c z)) ->
  forall (n : nat) (z : cplx), P z -> Forall P (orbit c z n).
Proof.
  intros Hstep. induction n as [| n IH]; intros z Hz; simpl; constructor.
  - apply Hstep, Hz.
  - apply IH, Hstep, Hz.
Qed.

Lemma iterate_fc_negative (c initial_z : cplx) (max_iter : Z) :
  max_iter < 0 -> iterate_fc c initial_z max_iter = (max_iter, [initial_z]).
Proof.
  intros HM. unfold iterate_fc. rewrite iterate_fc_loop_turn.
  assert (Hf : (0 <=? max_iter) = false) by (apply Z.leb_gt; lia).
  now rewrite Hf.
Qed.

End EvaluatorMore.

(** X1: for [max_iter >= 0], a start value that already has magnitude
    above 2 is returned at once with count 0 and no application of the
    recurrence; and the count is 0 exactly when the start value escapes
    or [max_iter] is 0. *)
Theorem iterate_fc_zero_count {N : Numbers}
        (c initial_z : cplx) (max_iter : Z) :
  0 <= max_iter ->
  (abs_gt_2 initial_z = true ->
   iterate_fc c initial_z max_iter = (0, [initial_z])) /\
  (fst (iterate_fc c initial_z max_iter) = 0 <->
   abs_gt_2 initial_z = true \/ max_iter = 0).
Proof.
  intros HM. rewrite iterate_fc_orbit by exact HM.
  replace (Z.to_nat (max_iter + 1)) with (S (Z.to_nat max_iter)) by lia.
  cbn [escape_within].
  destruct (abs_gt_2 initial_z) eqn:Hz.
  - split; [reflexivity |]. cbn. split; [now left | reflexivity].
  - split; [discriminate |].
    destruct (escape_within c (fc_step c initial_z) (Z.to_nat max_iter))
      as [j |] eqn:Hj; cbn [option_map fst].
    + pose proof (escape_within_bound _ _ _ _ Hj) as Hlt. split.
      * lia.
      * intros [Hf | H0]; [discriminate | lia].
    + split; [now right | intros [Hf | H0]; [discriminate | exact H0]].
Qed.

Lemma iterate_fc_zero_count_witness :
  iterate_fc (N := ExactNumbers) (inject_Z 0, inject_Z 0)
             (inject_Z 3, inject_Z 0) 5 =
  (0, [(inject_Z 3, inject_Z 0)]).
Proof.
  apply (proj1 (iterate_fc_zero_count (N := ExactNumbers)
                  (inject_Z 0, inject_Z 0) (inject_Z 3, inject_Z 0) 5
                  ltac:(lia))).
  reflexivity.
Defined.

(** X2: raising [max_iter] never lowers the count and only extends the
    trajectory: for [0 <= max_iter <= max_iter'] the count for [max_iter]
    is at most the count for [max_iter'], and the trajectory for
    [max_iter] is a prefix of the one for [max_iter']. *)
Theorem iterate_fc_monotone {N : Numbers}
        (c initial_z : cplx) (max_iter max_iter' : Z) :
  0 <= max_iter -> max_iter <= max_iter' ->
  fst (iterate_fc c initial_z max_iter) <=
  fst (iterate_fc c initial_z max_iter') /\
  exists rest : list cplx,
    snd (iterate_fc c initial_z max_iter') =
    snd (iterate_fc c initial_z max_iter) ++ rest.
Proof.
  intros HM HM'. rewrite !iterate_fc_orbit by lia.
  assert (Hn : (Z.to_nat (max_iter + 1) <= Z.to_nat (max_iter' + 1))%nat)
    by lia.
  destruct (escape_within c initial_z (Z.to_nat (max_iter + 1)))
    as [j |] eqn:Hj.
  - rewrite (escape_within_mono _ _ _ _ _ Hj Hn). cbn [fst snd].
    split; [lia | exists []; now rewrite app_nil_r].
  - destruct (escape_within c initial_z (Z.to_nat (max_iter' + 1)))
      as [j' |] eqn:Hj'; cbn [fst snd].
    + pose proof (escape_within_late _ _ _ _ _ Hj Hj') as Hlate.
      split; [lia |].
      destruct (orbit_prefix c _ initial_z j' Hlate) as [rest Hrest].
      exists rest. now rewrite Hrest.
    + split; [lia |].
      destruct (orbit_prefix c _ initial_z _ Hn) as [rest Hrest].
      exists rest. now rewrite Hrest.
Qed.

Lemma iterate_fc_monotone_witness :
  fst (iterate_fc (N := ExactNumbers) (inject_Z 1, inject_Z 0)
                  (inject_Z 0, inject_Z 0) 1) <=
  fst (iterate_fc (N := ExactNumbers) (inject_Z 1, inject_Z 0)
                  (inject_Z 0, inject_Z 0) 6).
Proof.
  apply (proj1 (iterate_fc_monotone (N := ExactNumbers)
                  (inject_Z 1, inject_Z 0) (inject_Z 0, inject_Z 0) 1 6
                  ltac:(lia) ltac:(lia))).
Defined.

(** X3: for [max_iter >= 0], every entry of the trajectory except the last
    has magnitude at most 2; and when the count is below [max_iter] the
    last entry, at index [count], has magnitude above 2. *)
Theorem iterate_fc_only_last_escapes {N : Numbers}
        (c initial_z : cplx) (max_iter : Z) :
  0 <= max_iter ->
  let r := iterate_fc c initial_z max_iter in
  (forall (i : nat) (a : cplx),
     nth_error (snd r) i = Some a ->
     (S i < List.length (snd r))%nat ->
     abs_gt_2 a = false) /\
  (fst r < max_iter ->
   exists a : cplx,
     nth_error (snd r) (Z.to_nat (fst r)) = Some a /\
     abs_gt_2 a = true /\
     Z.of_nat (List.length (snd r)) = fst r + 1).
Proof.
  intros HM r. subst r. rewrite iterate_fc_orbit by exact HM.
  destruct (escape_within c initial_z (Z.to_nat (max_iter + 1)))
    as [j |] eqn:Hj; cbn [fst snd].
  - destruct (escape_within_some _ _ _ _ Hj) as [He Hb]. split.
    + intros i a Hi Hlen. cbn [List.length] in Hlen.
      rewrite orbit_length in Hlen.
      rewrite orbit_nth in Hi by lia. injection Hi as <-. apply Hb. lia.
    + intros _. exists (orbit_at c initial_z j).
      rewrite Nat2Z.id. rewrite orbit_nth by lia.
      cbn [List.length]. rewrite orbit_length.
      split; [reflexivity | split; [exact He | lia]].
  - split; [| lia].
    intros i a Hi Hlen. cbn [List.length] in Hlen.
    rewrite orbit_length in Hlen.
    rewrite orbit_nth in Hi by lia. injection Hi as <-.
    apply (escape_within_none _ _ _ Hj). lia.
Qed.

Lemma iterate_fc_only_last_escapes_witness :
  exists a : Q * Q,
    nth_error (snd (iterate_fc (N := ExactNumbers) (inject_Z 1, inject_Z 0)
                               (inject_Z 0, inject_Z 0) 6)) 3 = Some a /\
    abs_gt_2 a = true.
Proof.
  destruct (proj2 (iterate_fc_only_last_escapes (N := ExactNumbers)
                     (inject_Z 1, inject_Z 0) (inject_Z 0, inject_Z 0) 6
                     ltac:(lia)) ltac:(vm_compute; reflexivity))
    as [a [Ha [He _]]].
  exists a. split; [exact Ha | exact He].
Defined.

(** X4: if the start value lies in a set that the recurrence maps into
    itself and that holds no value of magnitude above 2, then for
    [max_iter >= 0] the count is [max_iter], the trajectory has
    [max_iter + 2] entries, and all of them lie in the set. *)
Theorem iterate_fc_invariant_set {N : Numbers} (P : cplx -> Prop)
        (c initial_z : cplx) (max_iter : Z) :
  P initial_z ->
  (forall z, P z -> P (cadd (cmul z z) c)) ->
  (forall z, P z -> abs_gt_2 z = false) ->
  0 <= max_iter ->
  fst (iterate_fc c initial_z max_iter) = max_iter /\
  Z.of_nat (List.length (snd (iterate_fc c initial_z max_iter))) =
  max_iter + 2 /\
  Forall P (snd (iterate_fc c initial_z max_iter)).
Proof.
  intros H0 Hstep Hin HM. rewrite iterate_fc_orbit by exact HM.
  rewrite escape_within_never.
  - cbn [fst snd List.length]. rewrite orbit_length.
    split; [reflexivity | split; [lia |]].
    constructor; [exact H0 | now apply orbit_invariant].
  - intros k _. apply Hin. now apply orbit_at_invariant.
Qed.

Lemma iterate_fc_invariant_set_witness :
  fst (iterate_fc (N := ExactNumbers) (inject_Z (-1), inject_Z 0)
                  (inject_Z 0, inject_Z 0) 50) = 50.
Proof.
  apply (iterate_fc_invariant_set (N := ExactNumbers)
           (fun z => z = (inject_Z 0, inject_Z 0) \/
                     z = (inject_Z (-1), inject_Z 0))
           (inject_Z (-1), inject_Z 0) (inject_Z 0, inject_Z 0) 50).
  - left. reflexivity.
  - intros z [-> | ->]; [right | left]; reflexivity.
  - intros z [-> | ->]; reflexivity.
  - lia.
Defined.

(** ** The grid and the set *)

Section GridMore.

Context {N : Numbers}.

Lemma make_coordinates_one (x_range y_range : real * real)
      (x_steps y_steps : Z) :
  x_steps = 1 \/ y_steps = 1 ->
  make_coordinates x_range y_range x_steps y_steps = Raise ZeroDivisionError.
Proof.
  intros Hone. unfold make_coordinates.
  destruct (Z.eq_dec x_steps 1) as [-> | Hx1].
  - rewrite spaced_one. reflexivity.
  - destruct Hone as [Hx | ->]; [contradiction |].
    rewrite (spaced_ok _ _ _ Hx1), spaced_one. reflexivity.
Qed.

Lemma make_set_unfold (x_range y_range : real * real)
      (x_steps y_steps max_iter : Z) :
  make_set x_range y_range x_steps y_steps max_iter =
  match make_coordinates x_range y_range x_steps y_steps with
  | Ok cs =>
      Ok (cs, map (fun c => fst (iterate_fc c (c_of_int 0) max_iter)) cs)
  | Raise e => Raise e
  end.
Proof.
  unfold make_set.
  destruct (make_coordinates x_range y_range x_steps y_steps) as [cs | e];
    simpl; [| reflexivity].
  now rewrite make_set_loop.
Qed.

End GridMore.

(** X5: a resolution of zero or below is no error: when neither
    resolution is 1 and one of them is not positive, [make_coordinates]
    returns the empty list. *)
Theorem make_coordinates_empty {N : Numbers}
        (x_range y_range : real * real) (x_steps y_steps : Z) :
  x_steps <> 1 -> y_steps <> 1 ->
  x_steps <= 0 \/ y_steps <= 0 ->
  make_coordinates x_range y_range x_steps y_steps = Ok [].
Proof.
  intros Hx Hy Hneg.
  pose proof (make_coordinates_ok x_range y_range _ _ Hx Hy) as Hok.
  pose proof (make_coordinates_length _ _ _ _ _ Hx Hy Hok) as Hlen.
  rewrite Hok. f_equal. apply length_zero_iff_nil. rewrite Hlen.
  destruct Hneg as [Hn | Hn].
  - replace (Z.to_nat x_steps) with O by lia. lia.
  - replace (Z.to_nat y_steps) with O by lia. lia.
Qed.

Lemma make_coordinates_empty_witness :
  make_coordinates (N := ExactNumbers)
                   (inject_Z (-1), inject_Z 1) (inject_Z (-1), inject_Z 1)
                   0 5 = Ok [].
Proof.
  apply (make_coordinates_empty (N := ExactNumbers)); lia.
Defined.





(** X8: with a negative [max_iter] every count [make_set] returns is
    [max_iter] itself. *)
Theorem make_set_negative_max_iter {N : Numbers}
        (x_range y_range : real * real) (x_steps y_steps max_iter : Z)
        (cs : list cplx) (iters : list Z) :
  max_iter < 0 ->
  make_set x_range y_range x_steps y_steps max_iter = Ok (cs, iters) ->
  iters = repeat max_iter (List.length cs).
Proof.
  intros HM Hset. apply make_set_ok in Hset as [_ ->].
  rewrite <- map_const. apply map_ext. intros c.
  now rewrite iterate_fc_negative.
Qed.

Lemma make_set_negative_max_iter_witness :
  make_set (N := ExactNumbers)
           (inject_Z (-1), inject_Z 1) (inject_Z (-1), inject_Z 1) 2 2 (-2) =
  Ok ([ (inject_Z (-1), inject_Z (-1)); (inject_Z 1, inject_Z (-1));
        (inject_Z (-1), inject_Z 1); (inject_Z 1, inject_Z 1) ],
      [-2; -2; -2; -2]) /\
  [-2; -2; -2; -2] = repeat (-2) 4.
Proof.
  split; [reflexivity |].
  apply (make_set_negative_max_iter (N := ExactNumbers)
           (inject_Z (-1), inject_Z 1) (inject_Z (-1), inject_Z 1) 2 2 (-2)
           [ (inject_Z (-1), inject_Z (-1)); (inject_Z 1, inject_Z (-1));
             (inject_Z (-1), inject_Z 1); (inject_Z 1, inject_Z 1) ]
           [-2; -2; -2; -2]);
    [lia | reflexivity].
Defined.

(** ** Rendering *)

Section RenderMore.

Context {I : Imaging}.

Lemma in_list_app_self (name : string) (l : list string) :
  Render.in_list name (l ++ [name]) = true.
Proof.
  unfold Render.in_list. rewrite existsb_app. simpl.
  rewrite String.eqb_refl. now rewrite orb_true_r.
Qed.

Lemma duplicate_keyword (key v : string) (kwargs : list (string * string)) :
  In (key, v) kwargs ->
  Render.in_list key ["fname"; "arr"; "origin"]%string = true ->
  existsb (fun kv => Render.in_list (fst kv) ["fname"; "arr"; "origin"]%string)
          kwargs = true.
Proof.
  intros Hin Hkey. apply existsb_exists. exists (key, v). now split.
Qed.

End RenderMore.

(** X9: [save_figure] without a path, when it completes, writes one image
    to [images/<timestamp name>] with origin [lower] and the caller's
    keyword arguments, the array being the counts reshaped to
    [(y_steps, x_steps)].  Afterwards the directory [images] exists: it is
    created when it was absent and the listing is left alone when it was
    there. *)
Theorem save_figure_default_path {I : Imaging} {cplx : Type}
        (cs : list cplx) (iters : list Z) (x_steps y_steps : Z)
        (kwargs : list (string * string)) (w w' : Render.world) :
  Render.save_figure cs iters x_steps y_steps None kwargs w = (w', Ok tt) ->
  (exists arr : array,
     reshape iters (y_steps, x_steps) = Ok arr /\
     Render.written w' =
     Render.written w ++
       [Render.Imsave
          (Render.join "images" (Render.strftime_name (Render.clock w)))
          arr "lower" kwargs]) /\
  Render.in_list "images" (Render.cwd_entries w') = true /\
  (Render.in_list "images" (Render.cwd_entries w) = true ->
   Render.cwd_entries w' = Render.cwd_entries w) /\
  (Render.in_list "images" (Render.cwd_entries w) = false ->
   Render.cwd_entries w' = Render.cwd_entries w ++ ["images"%string]).
Proof.
  unfold Render.save_figure.
  destruct (reshape iters (y_steps, x_steps)) as [arr | e]; [| discriminate].
  destruct (existsb _ kwargs); [discriminate |].
  destruct (Render.in_list "images" (Render.cwd_entries w)) eqn:Hdir;
    cbn [negb]; intros [= <-]; unfold Render.imsave, Render.mkdir;
    cbn [Render.written Render.cwd_entries Render.clock].
  - split; [exists arr; now split |].
    split; [exact Hdir | split; [reflexivity | discriminate]].
  - split; [exists arr; now split |].
    split; [apply in_list_app_self | split; [discriminate | reflexivity]].
Qed.

Lemma save_figure_default_path_witness :
  Render.in_list "images"
    (Render.cwd_entries
       (fst (Render.save_figure (I := RowArrays) (@nil (Q * Q)) [1; 2; 3; 4]
               2 2 None [] (Render.World ["src"%string]
                              (Render.Timestamp 2024 1 2 3 4 5) [])))) = true.
Proof.
  apply (save_figure_default_path (I := RowArrays) (@nil (Q * Q)) [1; 2; 3; 4]
           2 2 [] (Render.World ["src"%string]
                     (Render.Timestamp 2024 1 2 3 4 5) []) _ eq_refl).
Defined.

(** X10: when the counts do not fit the shape [(y_steps, x_steps)],
    [save_figure] raises the reshape's exception and writes no image.
    With an explicit path nothing outside changes at all; without one the
    directory [images] has been created all the same. *)
Theorem save_figure_bad_shape {I : Imaging} {cplx : Type}
        (cs : list cplx) (iters : list Z) (x_steps y_steps : Z)
        (fname : option string) (kwargs : list (string * string))
        (w : Render.world) (e : exn) :
  reshape iters (y_steps, x_steps) = Raise e ->
  let out := Render.save_figure cs iters x_steps y_steps fname kwargs w in
  snd out = Raise e /\
  Render.written (fst out) = Render.written w /\
  (fname <> None -> fst out = w) /\
  (fname = None ->
   Render.in_list "images" (Render.cwd_entries (fst out)) = true).
Proof.
  intros Hshape out. subst out. unfold Render.save_figure. rewrite Hshape.
  destruct fname as [f |].
  - cbn [fst snd]. split; [reflexivity | split; [reflexivity |]].
    split; [reflexivity | discriminate].
  - destruct (Render.in_list "images" (Render.cwd_entries w)) eqn:Hdir;
      cbn [negb fst snd]; unfold Render.mkdir;
      cbn [Render.written Render.cwd_entries].
    + split; [reflexivity | split; [reflexivity |]].
      split; [intros Hf; now destruct Hf | intros _; exact Hdir].
    + split; [reflexivity | split; [reflexivity |]].
      split; [intros Hf; now destruct Hf | intros _; apply in_list_app_self].
Qed.

Lemma save_figure_bad_shape_witness :
  let out := Render.save_figure (I := RowArrays) (@nil (Q * Q)) [1; 2; 3]
               2 2 None [] (Render.World []
                              (Render.Timestamp 2024 1 2 3 4 5) []) in
  snd out = Raise ValueError /\
  Render.written (fst out) = [] /\
  Render.cwd_entries (fst out) = ["images"%string].
Proof.
  pose proof (save_figure_bad_shape (I := RowArrays) (@nil (Q * Q)) [1; 2; 3]
                2 2 None []
                (Render.World [] (Render.Timestamp 2024 1 2 3 4 5) [])
                ValueError eq_refl) as [Hs [Hw _]].
  split; [exact Hs | split; [exact Hw | reflexivity]].
Defined.



(** X12: a caller of [save_figure] cannot override the origin or the
    array: a keyword argument named [origin] or [arr] collides with the one
    [save_figure] passes to the sink, [TypeError] is raised and no image is
    written. *)
Theorem save_figure_keyword_collision {I : Imaging} {cplx : Type}
        (cs : list cplx) (iters : list Z) (x_steps y_steps : Z)
        (fname : option string) (kwargs : list (string * string))
        (w : Render.world) (arr : array) (v : string) :
  reshape iters (y_steps, x_steps) = Ok arr ->
  In ("origin"%string, v) kwargs \/ In ("arr"%string, v) kwargs ->
  let out := Render.save_figure cs iters x_steps y_steps fname kwargs w in
  snd out = Raise TypeError /\
  Render.written (fst out) = Render.written w.
Proof.
  intros Hshape Hkw out. subst out. unfold Render.save_figure.
  rewrite Hshape.
  assert (Hdup : existsb
                   (fun kv => Render.in_list (fst kv)
                                ["fname"; "arr"; "origin"]%string)
                   kwargs = true).
  { destruct Hkw as [Hin | Hin];
      apply (duplicate_keyword _ _ _ Hin); reflexivity. }
  rewrite Hdup.
  destruct fname as [f |]; [split; reflexivity |].
  destruct (negb (Render.in_list "images" (Render.cwd_entries w)));
    split; reflexivity.
Qed.

Lemma save_figure_keyword_collision_witness :
  snd (Render.save_figure (I := RowArrays) (@nil (Q * Q)) [1; 2; 3; 4] 2 2
         (Some "out.png"%string) [("origin"%string, "upper"%string)]
         (Render.World [] (Render.Timestamp 2024 1 2 3 4 5) [])) =
  Raise TypeError.
Proof.
  apply (save_figure_keyword_collision (I := RowArrays) (@nil (Q * Q))
           [1; 2; 3; 4] 2 2 (Some "out.png"%string)
           [("origin"%string, "upper"%string)]
           (Render.World [] (Render.Timestamp 2024 1 2 3 4 5) [])
           [[1; 2]; [3; 4]] "upper" eq_refl).
  left. left. reflexivity.
Defined.

Section FigureMore.

Context {I : Imaging}.

Lemma cmap_no_collision (cmap : string) :
  existsb (fun kv => Render.in_list (fst kv) ["fname"; "arr"; "origin"]%string)
          [("cmap"%string, cmap)] = false.
Proof. reflexivity. Qed.

End FigureMore.

(** X13: when [make_figure] completes it has written exactly one image:
    the counts of [make_set] reshaped to [(y_steps, x_steps)], at the
    timestamp-derived path under [images], with origin [lower] and the
    single keyword argument [cmap]; the caller's other keyword arguments
    are not passed on. *)
Theorem make_figure_single_image {N : Numbers} {I : Imaging}
        (x_range y_range : real * real) (x_steps y_steps max_iter : Z)
        (fname : option string) (cmap : string)
        (kwargs : list (string * string)) (w w' : Render.world) :
  Render.make_figure x_range y_range x_steps y_steps max_iter fname cmap
                     kwargs w = (w', Ok tt) ->
  exists (cs : list cplx) (iters : list Z) (arr : array),
    make_set x_range y_range x_steps y_steps max_iter = Ok (cs, iters) /\
    reshape iters (y_steps, x_steps) = Ok arr /\
    Render.written w' =
    Render.written w ++
      [Render.Imsave
         (Render.join "images" (Render.strftime_name (Render.clock w)))
         arr "lower" [("cmap"%string, cmap)]].
Proof.
  unfold Render.make_figure.
  destruct (make_set x_range y_range x_steps y_steps max_iter)
    as [[cs iters] | e]; [| discriminate].
  unfold Render.save_figure.
  destruct (reshape iters (y_steps, x_steps)) as [arr | e] eqn:Hshape;
    [| discriminate].
  rewrite cmap_no_collision.
  destruct (Render.in_list "images" (Render.cwd_entries w));
    cbn [negb]; intros [= <-]; exists cs, iters, arr;
    (split; [reflexivity | split; [exact Hshape |]]); reflexivity.
Qed.

Lemma make_figure_single_image_witness :
  exists (cs : list (Q * Q)) (iters : list Z) (arr : list (list Z)),
    make_set (N := ExactNumbers)
             (inject_Z (-1), inject_Z 1) (inject_Z (-1), inject_Z 1) 2 2 1 =
    Ok (cs, iters) /\
    reshape (Imaging := RowArrays) iters (2, 2) = Ok arr /\
    Render.written
      (fst (Render.make_figure (N := ExactNumbers) (I := RowArrays)
              (inject_Z (-1), inject_Z 1) (inject_Z (-1), inject_Z 1) 2 2 1
              None "hot"%string [("dpi"%string, "300"%string)]
              (Render.World [] (Render.Timestamp 2024 1 2 3 4 5) []))) =
    [] ++
      [Render.Imsave
         (Render.join "images"
            (Render.strftime_name (Render.Timestamp 2024 1 2 3 4 5)))
         arr "lower" [("cmap"%string, "hot"%string)]].
Proof.
  apply (make_figure_single_image (N := ExactNumbers) (I := RowArrays)
           (inject_Z (-1), inject_Z 1) (inject_Z (-1), inject_Z 1) 2 2 1
           None "hot"%string [("dpi"%string, "300"%string)]
           (Render.World [] (Render.Timestamp 2024 1 2 3 4 5) []) _ eq_refl).
Defined.

(** X14: with a resolution of 1 [make_figure] raises
    [ZeroDivisionError] before it touches anything: no directory is
    created and no image is written. *)
Theorem make_figure_resolution_one {N : Numbers} {I : Imaging}
        (x_range y_range : real * real) (x_steps y_steps max_iter : Z)
        (fname : option string) (cmap : string)
        (kwargs : list (string * string)) (w : Render.world) :
  x_steps = 1 \/ y_steps = 1 ->
  Render.make_figure x_range y_range x_steps y_steps max_iter fname cmap
                     kwargs w = (w, Raise ZeroDivisionError).
Proof.
  intros Hone. unfold Render.make_figure.
  rewrite make_set_unfold, make_coordinates_one by exact Hone. reflexivity.
Qed.

Lemma make_figure_resolution_one_witness :
  Render.make_figure (N := ExactNumbers) (I := RowArrays)
    (inject_Z (-1), inject_Z 1) (inject_Z (-1), inject_Z 1) 1 8 5
    None "hot"%string []
    (Render.World [] (Render.Timestamp 2024 1 2 3 4 5) []) =
  (Render.World [] (Render.Timestamp 2024 1 2 3 4 5) [],
   Raise ZeroDivisionError).
Proof.
  apply (make_figure_resolution_one (N := ExactNumbers) (I := RowArrays)).
  left. reflexivity.
Defined.


